(** * ashell: [assets/rename_font.py]

    A shallow embedding of the font renaming script and the properties of
    its name-table rewrite.

    The script loads [ashell_icon.ttf] through fontTools, overwrites the
    [string] of every record of the [name] table whose [nameID] is a key of
    the fixed dictionary [name_map] with the UTF-16-BE bytes of the mapped
    text, saves the font over the same path and prints one line.

    Layout of the development:
    - bytes, Python [str] values and the [utf-16-be] codec;
    - naming records, their order, [name_map] and the rewrite loop;
    - the file system, the console, the fontTools interface and the script;
    - the properties. *)

From Stdlib Require Import ZArith Lia.
From Stdlib.Strings Require Import Byte.
From stdpp Require Import base option list gmap strings sorting.

(** ** Exceptions and results *)

(** The exceptions that can leave the script. Nothing in the script catches
    any of them. *)
Inductive PyExc :=
  | FileNotFoundError   (* open() on a path that does not exist *)
  | TTLibError          (* the file is not a font fontTools can read *)
  | KeyError            (* font["name"] on a font without that table *)
  | StructError         (* struct.error: a table whose bytes do not unpack *)
  | UnicodeEncodeError  (* a text the codec cannot encode *)
  | CompileError.       (* a table that cannot be serialised on save *)

Inductive result (A : Type) :=
  | Ok (a : A)
  | Raise (e : PyExc).
Arguments Ok {A} a.
Arguments Raise {A} e.

(** Exceptions propagate: the rest of a sequence is skipped. *)
#[global] Instance result_ret : MRet result := λ A a, Ok a.
#[global] Instance result_bind : MBind result := λ A B k m,
  match m with
  | Ok a => k a
  | Raise e => Raise e
  end.

(** ** Bytes *)

Definition byte_of_Z (z : Z) : byte :=
  default Byte.x00 (Byte.of_N (Z.to_N (z mod 256))).

Definition Z_of_byte (b : byte) : Z := Z.of_N (Byte.to_N b).

(** ** Python [str] and the [utf-16-be] codec *)

(** A Python [str] is a sequence of code points, each in [0, 0x10FFFF]. *)
Definition str := list Z.

Definition valid_code_point (c : Z) : Prop := (0 ≤ c ≤ 0x10FFFF)%Z.
Definition valid_str (s : str) : Prop := Forall valid_code_point s.

(** A literal of the source whose characters are all ASCII: one code point
    per character. *)
Definition lit (s : string) : str :=
  (λ a, Z.of_N (Ascii.N_of_ascii a)) <$> String.list_ascii_of_string s.

Definition is_high_surrogate (u : Z) : bool := (0xD800 <=? u)%Z && (u <=? 0xDBFF)%Z.
Definition is_low_surrogate (u : Z) : bool := (0xDC00 <=? u)%Z && (u <=? 0xDFFF)%Z.
Definition is_surrogate (u : Z) : bool := (0xD800 <=? u)%Z && (u <=? 0xDFFF)%Z.

Definition is_code_unit (u : Z) : Prop := (0 ≤ u < 0x10000)%Z.

(** The 16-bit code units of one code point; a surrogate code point has no
    encoding (the codec's strict error handler raises). *)
Definition utf16_units (c : Z) : result (list Z) :=
  if (c <? 0x10000)%Z then
    if is_surrogate c then Raise UnicodeEncodeError else Ok [c]
  else
    Ok [ (0xD800 - 0x40 + Z.shiftr c 10)%Z; (0xDC00 + Z.land c 0x3FF)%Z ].

(** One code unit, most significant byte first. *)
Definition unit_bytes_be (u : Z) : list byte :=
  [ byte_of_Z (Z.shiftr u 8); byte_of_Z (Z.land u 0xFF) ].

(** [s.encode("utf-16-be")]: no byte order mark, big-endian units. *)
Fixpoint encode_utf_16_be (s : str) : result (list byte) :=
  match s with
  | [] => Ok []
  | c :: s' =>
      us ← utf16_units c;
      bs ← encode_utf_16_be s';
      Ok (concat (unit_bytes_be <$> us) ++ bs)
  end.

(** [b.decode("utf-16-be")], strict: an odd length, a lone surrogate or a
    high surrogate without its low half is an error ([None]). *)
Fixpoint units_of_bytes_be (b : list byte) : option (list Z) :=
  match b with
  | [] => Some []
  | [_] => None
  | hi :: lo :: b' =>
      match units_of_bytes_be b' with
      | Some us => Some (Z.lor (Z.shiftl (Z_of_byte hi) 8) (Z_of_byte lo) :: us)
      | None => None
      end
  end.

Fixpoint code_points_of_units (us : list Z) : option str :=
  match us with
  | [] => Some []
  | u :: us' =>
      if is_high_surrogate u then
        match us' with
        | u2 :: us'' =>
            if is_low_surrogate u2 then
              match code_points_of_units us'' with
              | Some cs =>
                  Some ((0x10000 + Z.lor (Z.shiftl (Z.land u 0x3FF) 10)
                                         (Z.land u2 0x3FF))%Z :: cs)
              | None => None
              end
            else None
        | [] => None
        end
      else if is_low_surrogate u then None
      else
        match code_points_of_units us' with
        | Some cs => Some (u :: cs)
        | None => None
        end
  end.

Definition decode_utf_16_be (b : list byte) : option str :=
  match units_of_bytes_be b with
  | Some us => code_points_of_units us
  | None => None
  end.

(** ** Naming records *)

(** A record of the [name] table as fontTools presents it: four numeric
    identifiers and the stored text as raw bytes. *)
Module NameRecord.

Record t := mk {
  nameID : Z;
  platformID : Z;
  platEncID : Z;
  langID : Z;
  string : list byte
}.

(** [record.string = b] *)
Definition set_string (record : t) (b : list byte) : t :=
  mk (nameID record) (platformID record) (platEncID record) (langID record) b.

End NameRecord.

(** The order of naming records, [NameRecord.__lt__]: the tuples
    [(platformID, platEncID, langID, nameID, string)] are compared, bytes as
    Python compares [bytes] (by value, a proper prefix first). *)
Fixpoint bytes_lt (a b : list byte) : bool :=
  match a, b with
  | _, [] => false
  | [], _ :: _ => true
  | x :: a', y :: b' =>
      match (Z_of_byte x ?= Z_of_byte y)%Z with
      | Lt => true
      | Gt => false
      | Eq => bytes_lt a' b'
      end
  end.

Definition record_lt (a b : NameRecord.t) : bool :=
  match (NameRecord.platformID a ?= NameRecord.platformID b)%Z with
  | Lt => true
  | Gt => false
  | Eq =>
  match (NameRecord.platEncID a ?= NameRecord.platEncID b)%Z with
  | Lt => true
  | Gt => false
  | Eq =>
  match (NameRecord.langID a ?= NameRecord.langID b)%Z with
  | Lt => true
  | Gt => false
  | Eq =>
  match (NameRecord.nameID a ?= NameRecord.nameID b)%Z with
  | Lt => true
  | Gt => false
  | Eq => bytes_lt (NameRecord.string a) (NameRecord.string b)
  end end end end.

(** [a] may stand before [b] in a sorted table. *)
Definition record_le (a b : NameRecord.t) : Prop := record_lt b a = false.

(** [names.sort()]: the records in ascending order; records that compare
    equal keep their relative order. *)
Fixpoint insert_record (x : NameRecord.t) (l : list NameRecord.t) : list NameRecord.t :=
  match l with
  | [] => [x]
  | y :: l' => if record_lt y x then y :: insert_record x l' else x :: y :: l'
  end.

Fixpoint sort_records (l : list NameRecord.t) : list NameRecord.t :=
  match l with
  | [] => []
  | x :: l' => insert_record x (sort_records l')
  end.

(** ** The script's constants *)

(** Common name IDs to update. *)
Definition name_map : gmap Z str :=
  <[ 1%Z := lit "Ashell Nerd Font" ]>          (* Font Family *)
  (<[ 2%Z := lit "Regular" ]>                  (* Subfamily *)
  (<[ 3%Z := lit "AshellNerdFont-Regular" ]>   (* Unique Identifier *)
  (<[ 4%Z := lit "Ashell Nerd Font Regular" ]> (* Full Font Name *)
  (<[ 6%Z := lit "AshellNerdFont-Regular" ]>   (* PostScript Name *)
   ∅)))).

(** ** The rewrite loop *)

(** [d[k]] on a dictionary: a missing key raises. *)
Definition dict_getitem (d : gmap Z str) (k : Z) : result str :=
  match d !! k with
  | Some v => Ok v
  | None => Raise KeyError
  end.

(** The body of the loop for one record:
    [if record.nameID in name_map: ...]. *)
Definition rewrite_record (record : NameRecord.t) : result NameRecord.t :=
  if bool_decide (NameRecord.nameID record ∈ dom name_map) then
    new_name ← dict_getitem name_map (NameRecord.nameID record);
    b ← encode_utf_16_be new_name;
    Ok (NameRecord.set_string record b)
  else Ok record.

(** [for record in font["name"].names: ...]: the records are visited in
    order; an exception stops the loop. *)
Fixpoint rewrite_names (names : list NameRecord.t) : result (list NameRecord.t) :=
  match names with
  | [] => Ok []
  | record :: rest =>
      record' ← rewrite_record record;
      rest' ← rewrite_names rest;
      Ok (record' :: rest')
  end.

(** ** Fonts, the file system and the fontTools interface *)

(** A path is its list of components. *)
Definition path := list string.

(** The font object the script works on. Its [name] table is decoded on
    first access: the field is [None] when the font has no such table, and
    otherwise what decoding the table gives, its records or the exception
    it raises. The other tables are kept as data under their tags. *)
Module TTFont.

Record t := mk {
  name : option (result (list NameRecord.t));
  tables : gmap string (list byte)
}.

(** The records of [font["name"].names] are updated in place: the font
    object sees the new list. *)
Definition set_names (font : t) (names : list NameRecord.t) : t :=
  mk (Some (Ok names)) (tables font).

(** Serialising a decoded [name] table starts with [names.sort()], in
    place. *)
Definition sort_names (font : t) : t :=
  match name font with
  | Some (Ok names) => mk (Some (Ok (sort_records names))) (tables font)
  | _ => font
  end.

End TTFont.

(** What the script uses of fontTools: reading a font from the bytes of a
    file and serialising a font. Both are left open; either may fail. *)
Class FontTools := {
  decompile : list byte → option TTFont.t;
  compile : TTFont.t → option (list byte)
}.

(** The console: which texts [sys.stdout] can encode. *)
Class Console := {
  stdout_encodes : string → bool
}.

(** What a run does to the outside, in order. *)
Inductive event :=
  | Loaded (p : path)
  | Saved (p : path) (data : list byte)
  | Closed
  | Printed (line : string).

Record world := World {
  fs : gmap path (list byte);
  log : list event
}.

(** A statement: it runs in a world and either returns or raises. *)
Definition prog (A : Type) : Type := world → result A * world.

#[global] Instance prog_ret : MRet prog := λ A a w, (Ok a, w).
#[global] Instance prog_bind : MBind prog := λ A B k m w,
  match m w with
  | (Ok a, w') => k a w'
  | (Raise e, w') => (Raise e, w')
  end.

Definition lift {A} (r : result A) : prog A := λ w, (r, w).

Definition emit (e : event) : prog () := λ w,
  (Ok (), World (fs w) (log w ++ [e])).

Section script.
Context {fontTools : FontTools} {console : Console}.

(** [Path(__file__).resolve().parent] *)
Variable SCRIPT_DIR : path.

(** [SCRIPT_DIR / "ashell_icon.ttf"] *)
Definition FONT_PATH : path := SCRIPT_DIR ++ ["ashell_icon.ttf"].

(** [TTFont(p)] *)
Definition TTFont_open (p : path) : prog TTFont.t := λ w,
  match fs w !! p with
  | None => (Raise FileNotFoundError, w)
  | Some data =>
      match decompile data with
      | None => (Raise TTLibError, w)
      | Some font => (Ok font, World (fs w) (log w ++ [Loaded p]))
      end
  end.

(** [font["name"].names]: a missing table is a [KeyError]; a table that is
    there is decoded now, and what that raises is raised here. *)
Definition font_names (font : TTFont.t) : prog (list NameRecord.t) :=
  lift (match TTFont.name font with
        | Some names => names
        | None => Raise KeyError
        end).

(** [font.save(p)]: the records of the [name] table are sorted and the font
    is serialised; then the file at [p] is replaced. *)
Definition TTFont_save (font : TTFont.t) (p : path) : prog () := λ w,
  match compile (TTFont.sort_names font) with
  | None => (Raise CompileError, w)
  | Some data => (Ok (), World (<[p := data]> (fs w)) (log w ++ [Saved p data]))
  end.

(** [font.close()] *)
Definition TTFont_close (font : TTFont.t) : prog () := emit Closed.

(** [print(line)]: the line is encoded for the console before anything is
    written; a console that cannot encode it raises. *)
Definition print (line : string) : prog () :=
  if stdout_encodes line then emit (Printed line)
  else lift (Raise UnicodeEncodeError).

Definition success_message : string :=
  "✅ Font renamed and saved as ashell_icon.ttf".

(** The script, top to bottom. *)
Definition main : prog () :=
  font ← TTFont_open FONT_PATH;
  names ← font_names font;
  names' ← lift (rewrite_names names);
  let font := TTFont.set_names font names' in
  _ ← TTFont_save font FONT_PATH;
  _ ← TTFont_close font;
  print success_message.

End script.

(** ** Vocabulary of the statements *)

(** The fixed mapping as the specification lists it. *)
Definition spec_names : list (Z * string) :=
  [ (1%Z, "Ashell Nerd Font");
    (2%Z, "Regular");
    (3%Z, "AshellNerdFont-Regular");
    (4%Z, "Ashell Nerd Font Regular");
    (6%Z, "AshellNerdFont-Regular") ].

(** The identifiers the mapping has a text for. *)
Definition mapped_ids : list Z := [1; 2; 3; 4; 6]%Z.

(** Two records with the same four identifiers. *)
Definition same_ids (r r' : NameRecord.t) : Prop :=
  NameRecord.nameID r' = NameRecord.nameID r ∧
  NameRecord.platformID r' = NameRecord.platformID r ∧
  NameRecord.platEncID r' = NameRecord.platEncID r ∧
  NameRecord.langID r' = NameRecord.langID r.

(** The bytes a record holds once the loop body has run on it, and the
    record itself; [rewrite_names] is shown to return exactly these. *)
Definition new_string (record : NameRecord.t) : list byte :=
  match name_map !! NameRecord.nameID record with
  | Some new_name =>
      match encode_utf_16_be new_name with
      | Ok b => b
      | Raise _ => NameRecord.string record
      end
  | None => NameRecord.string record
  end.

Definition renamed (record : NameRecord.t) : NameRecord.t :=
  NameRecord.set_string record (new_string record).

(** Each code point as one 16-bit unit, high byte first: the big-endian
    16-bit form of a text without code points from 0x10000 on. *)
Definition big_endian_16 (s : str) : list byte :=
  c ← s; [byte_of_Z (c `div` 256); byte_of_Z (c `mod` 256)].

(** The [name] table a fresh [TTFont] would find in the font file. *)
Definition name_table_on_disk `{FontTools} (dir : path) (w : world)
    : option (list NameRecord.t) :=
  data ← fs w !! FONT_PATH dir;
  font ← decompile data;
  names ← TTFont.name font;
  match names with
  | Ok names => Some names
  | Raise _ => None
  end.

(** ** A small instance of the interface

    A font library that knows two files only: [sample_data] holds
    [sample_font], and [sample_font'], the font the script makes of it, is
    stored as [sample_data']. It serves to run the script on a concrete
    world. *)

#[global] Instance byte_eq_dec : EqDecision byte := Byte.byte_eq_dec.
#[global] Instance NameRecord_eq_dec : EqDecision NameRecord.t.
Proof. solve_decision. Defined.
#[global] Instance PyExc_eq_dec : EqDecision PyExc.
Proof. solve_decision. Defined.
#[global] Instance result_eq_dec `{EqDecision A} : EqDecision (result A).
Proof. solve_decision. Defined.
#[global] Instance TTFont_eq_dec : EqDecision TTFont.t.
Proof. solve_decision. Defined.

(** The bytes of an ASCII text as a font stores it. *)
Definition utf16 (text : string) : list byte :=
  match encode_utf_16_be (lit text) with
  | Ok b => b
  | Raise _ => []
  end.

Definition sample_names : list NameRecord.t :=
  [ NameRecord.mk 1 3 1 1033 (utf16 "Old Family");
    NameRecord.mk 2 3 1 1033 (utf16 "Bold");
    NameRecord.mk 6 3 1 1033 (utf16 "OldPS");
    NameRecord.mk 16 3 1 1033 (utf16 "Old Family") ].

Definition sample_font : TTFont.t :=
  TTFont.mk (Some (Ok sample_names)) {[ "glyf" := [Byte.x00; Byte.x01] ]}.

Definition sample_font' : TTFont.t :=
  TTFont.set_names sample_font (renamed <$> sample_names).

Definition sample_data : list byte := [Byte.x00].
Definition sample_data' : list byte := [Byte.x01].

Definition sample_fontTools : FontTools := {|
  decompile data :=
    if decide (data = sample_data) then Some sample_font
    else if decide (data = sample_data') then Some sample_font'
    else None;
  compile font :=
    if decide (font = sample_font') then Some sample_data' else None
|}.

Definition sample_dir : path := ["assets"].

Definition sample_world : world :=
  World {[ sample_dir ++ ["ashell_icon.ttf"] := sample_data ]} [].

(** A table whose records are not in sorted order, and a font library that
    knows the font holding it and the font the script saves for it. *)
Definition unsorted_names : list NameRecord.t :=
  [ NameRecord.mk 16 3 1 1033 (utf16 "Old Family");
    NameRecord.mk 4 3 1 1033 (utf16 "Old Family Bold");
    NameRecord.mk 1 1 0 0 (utf16 "Old Family");
    NameRecord.mk 17 1 0 0 (utf16 "Bold") ].

Definition unsorted_font : TTFont.t := TTFont.mk (Some (Ok unsorted_names)) ∅.

Definition unsorted_font' : TTFont.t :=
  TTFont.sort_names (TTFont.set_names unsorted_font (renamed <$> unsorted_names)).

Definition unsorted_fontTools : FontTools := {|
  decompile data :=
    if decide (data = sample_data) then Some unsorted_font
    else if decide (data = sample_data') then Some unsorted_font'
    else None;
  compile font :=
    if decide (font = unsorted_font') then Some sample_data' else None
|}.

(** A font library for which every file is a font whose [name] table does
    not decode, and which cannot serialise anything. *)
Definition malformed_fontTools : FontTools := {|
  decompile _ := Some (TTFont.mk (Some (Raise StructError)) ∅);
  compile _ := None
|}.

(** A console that encodes every text, and one that encodes ASCII only. *)
Definition unicode_console : Console := {| stdout_encodes _ := true |}.

Definition ascii_console : Console := {|
  stdout_encodes line :=
    forallb (λ a, (Ascii.N_of_ascii a <? 128)%N) (String.list_ascii_of_string line)
|}.

(** A font library for which every file is a font without a [name] table,
    and which cannot serialise anything. *)
Definition tableless_fontTools : FontTools := {|
  decompile _ := Some (TTFont.mk None ∅);
  compile _ := None
|}.

(** * Properties *)

(** ** The codec *)

Lemma Z_of_byte_range (b : byte) : (0 ≤ Z_of_byte b < 256)%Z.
Proof.
  unfold Z_of_byte. pose proof (Byte.to_N_bounded b). lia.
Qed.

Lemma Z_of_byte_of_Z (z : Z) : (0 ≤ z < 256)%Z → Z_of_byte (byte_of_Z z) = z.
Proof.
  intros Hz. unfold Z_of_byte, byte_of_Z.
  rewrite Z.mod_small by done.
  destruct (Byte.of_N (Z.to_N z)) as [b|] eqn:Hb; simpl.
  - apply Byte.to_of_N in Hb. lia.
  - apply Byte.of_N_None_iff in Hb. lia.
Qed.

Lemma byte_of_Z_of_byte (b : byte) : byte_of_Z (Z_of_byte b) = b.
Proof.
  unfold byte_of_Z. rewrite Z.mod_small by apply Z_of_byte_range.
  unfold Z_of_byte. by rewrite N2Z.id, Byte.of_to_N.
Qed.

(** Below [2^n] the bits of [lo] and of [hi << n] do not meet. *)
Lemma lor_shiftl_low (hi lo n : Z) :
  (0 ≤ n)%Z → (0 ≤ lo < 2 ^ n)%Z →
  Z.lor (Z.shiftl hi n) lo = (hi * 2 ^ n + lo)%Z.
Proof.
  intros Hn Hlo.
  assert (Z.land (Z.shiftl hi n) lo = 0%Z) as Hdisj.
  { apply Z.bits_inj'; intros k Hk. rewrite Z.land_spec, Z.bits_0.
    destruct (Z.lt_ge_cases k n) as [Hlt|Hge].
    - by rewrite Z.shiftl_spec_low.
    - destruct (Z.eq_dec lo 0%Z) as [->|Hne].
      + by rewrite Z.bits_0, andb_false_r.
      + rewrite (Z.bits_above_log2 lo k), andb_false_r; [done|lia|].
        apply Z.lt_le_trans with n; [|done]. apply Z.log2_lt_pow2; lia. }
  rewrite <- Z.lxor_lor, <- Z.add_nocarry_lxor, Z.shiftl_mul_pow2; done.
Qed.

Lemma units_of_unit_bytes_be (u : Z) (bs : list byte) :
  (0 ≤ u < 0x10000)%Z →
  units_of_bytes_be (unit_bytes_be u ++ bs) = (u ::.) <$> units_of_bytes_be bs.
Proof.
  intros Hu. unfold unit_bytes_be. cbn [app units_of_bytes_be].
  assert (Z.shiftr u 8 = u / 256)%Z as -> by (by rewrite Z.shiftr_div_pow2).
  assert (Z.land u 0xFF = u mod 256)%Z as ->
    by (change 0xFF%Z with (Z.ones 8); by rewrite Z.land_ones).
  assert (0 ≤ u / 256 < 256)%Z
    by (split; [apply Z.div_pos | apply Z.div_lt_upper_bound]; lia).
  assert (0 ≤ u mod 256 < 256)%Z by (apply Z.mod_pos_bound; lia).
  rewrite !Z_of_byte_of_Z, lor_shiftl_low by done.
  replace (u / 256 * 2 ^ 8 + u mod 256)%Z with u
    by (rewrite (Z.div_mod u 256) at 1; lia).
  by destruct (units_of_bytes_be bs).
Qed.

Lemma units_of_concat_bytes_be (us : list Z) (bs : list byte) :
  Forall is_code_unit us →
  units_of_bytes_be (concat (unit_bytes_be <$> us) ++ bs)
  = (us ++.) <$> units_of_bytes_be bs.
Proof.
  induction 1 as [|u us Hu _ IH].
  - cbn [fmap list_fmap concat app]. by destruct (units_of_bytes_be bs).
  - rewrite fmap_cons. cbn [concat]. rewrite <- app_assoc.
    rewrite units_of_unit_bytes_be, IH by done.
    by destruct (units_of_bytes_be bs).
Qed.

Lemma land_0x3FF (z : Z) : Z.land z 0x3FF = (z mod 1024)%Z.
Proof. change 0x3FF%Z with (Z.ones 10). by rewrite Z.land_ones. Qed.

(** The units of one code point decode to that code point again. *)
Lemma code_points_of_utf16_units (c : Z) (us rest : list Z) :
  valid_code_point c → utf16_units c = Ok us →
  Forall is_code_unit us ∧
  code_points_of_units (us ++ rest) = (c ::.) <$> code_points_of_units rest.
Proof.
  unfold valid_code_point, utf16_units, is_surrogate. intros Hc Hus.
  destruct (Z.ltb_spec c 0x10000) as [Hlt|Hge].
  - destruct (Z.leb_spec 0xD800 c), (Z.leb_spec c 0xDFFF);
      simplify_eq/=; (split; [repeat constructor; unfold is_code_unit; lia|]).
    all: unfold is_high_surrogate, is_low_surrogate.
    all: repeat match goal with
           | |- context [(?a <=? ?b)%Z] => destruct (Z.leb_spec a b); try lia
           end; simpl.
    all: by destruct (code_points_of_units rest).
  - simplify_eq. rewrite Z.shiftr_div_pow2, land_0x3FF by done.
    change (2 ^ 10)%Z with 1024%Z.
    assert (64 ≤ c / 1024 < 1088)%Z
      by (split; [apply Z.div_le_lower_bound | apply Z.div_lt_upper_bound]; lia).
    assert (0 ≤ c mod 1024 < 1024)%Z by (apply Z.mod_pos_bound; lia).
    split; [repeat constructor; unfold is_code_unit; lia|].
    cbn [app code_points_of_units].
    unfold is_high_surrogate, is_low_surrogate.
    repeat match goal with
           | |- context [(?a <=? ?b)%Z] => destruct (Z.leb_spec a b); try lia
           end; cbn [andb].
    rewrite !land_0x3FF.
    replace ((0xD800 - 0x40 + c / 1024) mod 1024)%Z with (c / 1024 - 64)%Z
      by (apply (Z.mod_unique_pos _ _ 54); lia).
    replace ((0xDC00 + c mod 1024) mod 1024)%Z with (c mod 1024)%Z
      by (apply (Z.mod_unique_pos _ _ 55); lia).
    rewrite lor_shiftl_low by done. change (2 ^ 10)%Z with 1024%Z.
    replace (0x10000 + ((c / 1024 - 64) * 1024 + c mod 1024))%Z with c
      by (rewrite (Z.div_mod c 1024) at 1; lia).
    by destruct (code_points_of_units rest).
Qed.

(** Encoding as a list of code units, then as bytes. *)
Lemma encode_utf_16_be_units (s : str) (b : list byte) :
  valid_str s → encode_utf_16_be s = Ok b →
  ∃ us, b = concat (unit_bytes_be <$> us) ∧ Forall is_code_unit us ∧
        code_points_of_units us = Some s.
Proof.
  intros Hs. revert b. induction Hs as [|c s Hc _ IH]; intros b Hb.
  - simplify_eq/=. by exists [].
  - cbn [encode_utf_16_be] in Hb.
    destruct (utf16_units c) as [us1|] eqn:Hus1; [|done].
    destruct (encode_utf_16_be s) as [bs|]; [|done].
    simplify_eq/=.
    destruct (IH bs eq_refl) as (us & -> & Hus & Hdec).
    destruct (code_points_of_utf16_units c us1 us Hc Hus1) as [Hr Hd].
    exists (us1 ++ us). split_and!.
    + by rewrite fmap_app, concat_app.
    + by apply Forall_app.
    + by rewrite Hd, Hdec.
Qed.

(** Decoding undoes encoding. *)
Lemma decode_encode_utf_16_be (s : str) (b : list byte) :
  valid_str s → encode_utf_16_be s = Ok b → decode_utf_16_be b = Some s.
Proof.
  intros Hs Hb.
  destruct (encode_utf_16_be_units s b Hs Hb) as (us & -> & Hus & Hdec).
  unfold decode_utf_16_be.
  rewrite <- (app_nil_r (concat _)), units_of_concat_bytes_be by done.
  simpl. by rewrite app_nil_r.
Qed.

(** The codec on two known values: an ASCII text, and a code point
    outside the basic plane (U+1F600, units D83D DE00). *)
Example encode_utf_16_be_Regular :
  encode_utf_16_be (lit "Regular")
  = Ok (byte_of_Z <$> [0; 82; 0; 101; 0; 103; 0; 117; 0; 108; 0; 97; 0; 114]%Z).
Proof. reflexivity. Qed.

Example encode_utf_16_be_astral :
  encode_utf_16_be [0x1F600%Z]
  = Ok (byte_of_Z <$> [0xD8; 0x3D; 0xDE; 0x00]%Z).
Proof. reflexivity. Qed.

Example encode_utf_16_be_lone_surrogate :
  encode_utf_16_be [0xD800%Z] = Raise UnicodeEncodeError.
Proof. reflexivity. Qed.

(** ** The mapping *)

Lemma name_map_lookup_Some (k : Z) (s : str) :
  name_map !! k = Some s ↔ ∃ text, (k, text) ∈ spec_names ∧ s = lit text.
Proof.
  unfold name_map, spec_names. rewrite !lookup_insert_Some, lookup_empty.
  split.
  - intros H.
    repeat (destruct H as [[<- <-]|[_ H]];
            [eexists; split; [|reflexivity]; set_solver|]).
    done.
  - intros (text & Hin & ->).
    rewrite !elem_of_cons, elem_of_nil in Hin.
    destruct_or?; simplify_eq; naive_solver lia.
Qed.

Lemma name_map_lookup_None (k : Z) :
  name_map !! k = None ↔ k ∉ mapped_ids.
Proof.
  unfold name_map, mapped_ids. rewrite !lookup_insert_None.
  rewrite !not_elem_of_cons, lookup_empty.
  split; intros; destruct_and!; split_and!;
    first [done | congruence | apply not_elem_of_nil].
Qed.

Lemma spec_names_valid (k : Z) (text : string) :
  (k, text) ∈ spec_names → valid_str (lit text).
Proof.
  unfold spec_names. rewrite !elem_of_cons, elem_of_nil.
  intros H; destruct_or?; simplify_eq; try done.
  all: unfold valid_str, valid_code_point.
  all: apply (bool_decide_unpack _); by vm_compute.
Qed.

(** Every text of the mapping has an encoding. *)
Lemma name_map_encodes (k : Z) (s : str) :
  name_map !! k = Some s →
  ∃ b, encode_utf_16_be s = Ok b ∧ decode_utf_16_be b = Some s.
Proof.
  intros Hk. assert (∃ b, encode_utf_16_be s = Ok b) as [b Hb].
  { apply name_map_lookup_Some in Hk as (text & Hin & ->).
    unfold spec_names in Hin. rewrite !elem_of_cons, elem_of_nil in Hin.
    destruct_or?; simplify_eq; try done; by eexists; vm_compute. }
  exists b. split; [done|]. apply decode_encode_utf_16_be; [|done].
  apply name_map_lookup_Some in Hk as (text & Hin & ->).
  by eapply spec_names_valid.
Qed.

(** The encoding of a text of the mapping is its big-endian 16-bit form. *)
Lemma name_map_big_endian (k : Z) (s : str) :
  name_map !! k = Some s → encode_utf_16_be s = Ok (big_endian_16 s).
Proof.
  intros Hk. apply name_map_lookup_Some in Hk as (text & Hin & ->).
  unfold spec_names in Hin. rewrite !elem_of_cons, elem_of_nil in Hin.
  destruct_or?; simplify_eq; try done; by vm_compute.
Qed.

Example big_endian_16_Regular :
  big_endian_16 (lit "Regular")
  = byte_of_Z <$> [0; 82; 0; 101; 0; 103; 0; 117; 0; 108; 0; 97; 0; 114]%Z.
Proof. reflexivity. Qed.

(** ** The loop *)

Lemma set_string_string (record : NameRecord.t) :
  NameRecord.set_string record (NameRecord.string record) = record.
Proof. by destruct record. Qed.

Lemma rewrite_record_renamed (record : NameRecord.t) :
  rewrite_record record = Ok (renamed record).
Proof.
  unfold rewrite_record, renamed, new_string, dict_getitem.
  destruct (name_map !! NameRecord.nameID record) as [s|] eqn:Hk.
  - rewrite bool_decide_eq_true_2 by (apply elem_of_dom; eauto).
    simpl. destruct (name_map_encodes _ _ Hk) as (b & -> & _). done.
  - rewrite bool_decide_eq_false_2 by by apply not_elem_of_dom.
    by rewrite set_string_string.
Qed.

(** The loop never raises: it returns the table with every record passed
    through the loop body. *)
Lemma rewrite_names_renamed (names : list NameRecord.t) :
  rewrite_names names = Ok (renamed <$> names).
Proof.
  induction names as [|record rest IH]; [done|].
  cbn [rewrite_names]. by rewrite rewrite_record_renamed, IH.
Qed.

Lemma renamed_mapped (record : NameRecord.t) (new_name : str) :
  name_map !! NameRecord.nameID record = Some new_name →
  ∃ b, encode_utf_16_be new_name = Ok b ∧
       decode_utf_16_be b = Some new_name ∧
       renamed record = NameRecord.set_string record b.
Proof.
  intros Hk. destruct (name_map_encodes _ _ Hk) as (b & Hb & Hd).
  exists b. unfold renamed, new_string. by rewrite Hk, Hb.
Qed.

Lemma renamed_unmapped (record : NameRecord.t) :
  name_map !! NameRecord.nameID record = None → renamed record = record.
Proof.
  intros Hk. unfold renamed, new_string. rewrite Hk.
  apply set_string_string.
Qed.

Lemma renamed_same_ids (record : NameRecord.t) : same_ids record (renamed record).
Proof. by destruct record. Qed.

Lemma renamed_idemp (record : NameRecord.t) :
  renamed (renamed record) = renamed record.
Proof.
  destruct (name_map !! NameRecord.nameID record) as [s|] eqn:Hk.
  - destruct (renamed_mapped _ _ Hk) as (b & Hb & _ & ->).
    destruct (renamed_mapped (NameRecord.set_string record b) s Hk)
      as (b' & Hb' & _ & ->).
    rewrite Hb in Hb'. injection Hb' as <-. by destruct record.
  - by rewrite !renamed_unmapped.
Qed.

Lemma fmap_fixed {A} (f : A → A) (l : list A) :
  f <$> l = l ↔ Forall (λ x, f x = x) l.
Proof.
  induction l as [|x l IH]; [by split|].
  rewrite fmap_cons, Forall_cons. split.
  - intros [= Hx Hl]. split; [done|]. by apply IH.
  - intros [Hx Hl]. f_equal; [done|]. by apply IH.
Qed.

(** Running the loop on its own result changes nothing. *)
Lemma rewrite_names_idemp (names names' : list NameRecord.t) :
  rewrite_names names = Ok names' → rewrite_names names' = Ok names'.
Proof.
  rewrite !rewrite_names_renamed. intros [= <-]. f_equal.
  rewrite <- list_fmap_compose. apply list_fmap_ext.
  intros _ record _. apply renamed_idemp.
Qed.

Lemma rewrite_names_lookup (names : list NameRecord.t) (i : nat) (record : NameRecord.t) :
  names !! i = Some record →
  ∃ names', rewrite_names names = Ok names' ∧
            names' !! i = Some (renamed record).
Proof.
  intros Hi. exists (renamed <$> names). split.
  - apply rewrite_names_renamed.
  - by rewrite list_lookup_fmap, Hi.
Qed.

Lemma mapped_ids_lookup (k : Z) :
  k ∈ mapped_ids → ∃ new_name, name_map !! k = Some new_name.
Proof.
  intros Hk. destruct (name_map !! k) as [s|] eqn:Hs; [by exists s|].
  by apply name_map_lookup_None in Hs.
Qed.

(** ** The order of records *)

Lemma bytes_lt_irrefl (a : list byte) : bytes_lt a a = false.
Proof.
  induction a as [|x a IH]; [done|]. simpl. by rewrite Z.compare_refl.
Qed.

Lemma bytes_lt_asym (a b : list byte) :
  bytes_lt a b = true → bytes_lt b a = false.
Proof.
  revert b. induction a as [|x a IH]; intros [|y b]; simpl; try done.
  rewrite (Z.compare_antisym (Z_of_byte x) (Z_of_byte y)).
  destruct (Z_of_byte x ?= Z_of_byte y)%Z; simpl; try done. apply IH.
Qed.

Lemma record_lt_asym (a b : NameRecord.t) :
  record_lt a b = true → record_lt b a = false.
Proof.
  unfold record_lt.
  rewrite (Z.compare_antisym (NameRecord.platformID a) (NameRecord.platformID b)).
  rewrite (Z.compare_antisym (NameRecord.platEncID a) (NameRecord.platEncID b)).
  rewrite (Z.compare_antisym (NameRecord.langID a) (NameRecord.langID b)).
  rewrite (Z.compare_antisym (NameRecord.nameID a) (NameRecord.nameID b)).
  destruct (NameRecord.platformID a ?= NameRecord.platformID b)%Z; simpl; try done.
  destruct (NameRecord.platEncID a ?= NameRecord.platEncID b)%Z; simpl; try done.
  destruct (NameRecord.langID a ?= NameRecord.langID b)%Z; simpl; try done.
  destruct (NameRecord.nameID a ?= NameRecord.nameID b)%Z; simpl; try done.
  apply bytes_lt_asym.
Qed.

Lemma insert_record_Permutation (x : NameRecord.t) (l : list NameRecord.t) :
  insert_record x l ≡ₚ x :: l.
Proof.
  induction l as [|y l IH]; [done|]. simpl.
  destruct (record_lt y x); [|done]. by rewrite IH, Permutation_swap.
Qed.

(** Sorting moves records, it neither adds nor drops any. *)
Lemma sort_records_Permutation (l : list NameRecord.t) : sort_records l ≡ₚ l.
Proof.
  induction l as [|x l IH]; [done|]. simpl.
  by rewrite insert_record_Permutation, IH.
Qed.

Lemma Sorted_insert_record (x : NameRecord.t) (l : list NameRecord.t) :
  Sorted record_le l → Sorted record_le (insert_record x l).
Proof.
  induction 1 as [|y l Hl IH Hy]; simpl.
  - by repeat constructor.
  - destruct (record_lt y x) eqn:Hyx.
    + constructor; [done|].
      destruct Hy as [|z l Hyz]; simpl.
      * constructor. by apply record_lt_asym.
      * destruct (record_lt z x); constructor; [done|].
        by apply record_lt_asym.
    + by repeat constructor.
Qed.

Lemma Sorted_sort_records (l : list NameRecord.t) :
  Sorted record_le (sort_records l).
Proof.
  induction l as [|x l IH]; [constructor|]. by apply Sorted_insert_record.
Qed.

(** A sorted table is left as it is. *)
Lemma sort_records_sorted (l : list NameRecord.t) :
  Sorted record_le l → sort_records l = l.
Proof.
  induction 1 as [|x l Hl IH Hx]; [done|]. simpl. rewrite IH.
  destruct Hx as [|y l Hxy]; [done|]. simpl.
  unfold record_le in Hxy. by rewrite Hxy.
Qed.

(** The loop body keeps the order of two records. *)
Lemma renamed_record_le (a b : NameRecord.t) :
  record_le a b → record_le (renamed a) (renamed b).
Proof.
  unfold record_le, record_lt, renamed. destruct a, b. simpl.
  destruct (_ ?= _)%Z; try done.
  destruct (_ ?= _)%Z; try done.
  destruct (_ ?= _)%Z; try done.
  destruct (_ ?= _)%Z eqn:Hid; try done.
  apply Z.compare_eq in Hid. subst. unfold new_string. simpl.
  destruct (name_map !! _); [|done].
  destruct (encode_utf_16_be _); [|done].
  intros _. apply bytes_lt_irrefl.
Qed.

Lemma Sorted_renamed (names : list NameRecord.t) :
  Sorted record_le names → Sorted record_le (renamed <$> names).
Proof.
  apply Sorted_fmap. exact renamed_record_le.
Qed.

(** The table a run saves is one a second run saves again unchanged. *)
Lemma saved_names_fixed (names : list NameRecord.t) :
  sort_records (renamed <$> sort_records (renamed <$> names))
  = sort_records (renamed <$> names).
Proof.
  assert (renamed <$> sort_records (renamed <$> names)
          = sort_records (renamed <$> names)) as ->.
  { apply fmap_fixed. rewrite sort_records_Permutation.
    apply Forall_fmap, Forall_forall. intros r _. apply renamed_idemp. }
  apply sort_records_sorted, Sorted_sort_records.
Qed.

(** ** The script *)

Section script_properties.
Context {fontTools : FontTools} {console : Console}.
Variable SCRIPT_DIR : path.

Abbreviation p := (FONT_PATH SCRIPT_DIR).

(** One run, case by case: where it can stop and what it has done by then. *)
Lemma main_run (w : world) :
  main SCRIPT_DIR w =
  match fs w !! p with
  | None => (Raise FileNotFoundError, w)
  | Some data =>
      match decompile data with
      | None => (Raise TTLibError, w)
      | Some font =>
          let w1 := World (fs w) (log w ++ [Loaded p]) in
          match TTFont.name font with
          | None => (Raise KeyError, w1)
          | Some (Raise e) => (Raise e, w1)
          | Some (Ok names) =>
              match compile (TTFont.mk
                               (Some (Ok (sort_records (renamed <$> names))))
                               (TTFont.tables font)) with
              | None => (Raise CompileError, w1)
              | Some out =>
                  if stdout_encodes success_message then
                    (Ok (),
                     World (<[p := out]> (fs w))
                           (log w ++ [Loaded p; Saved p out; Closed;
                                      Printed success_message]))
                  else
                    (Raise UnicodeEncodeError,
                     World (<[p := out]> (fs w))
                           (log w ++ [Loaded p; Saved p out; Closed]))
              end
          end
      end
  end.
Proof.
  unfold main, mbind, prog_bind, TTFont_open.
  destruct (fs w !! p) as [data|]; [|done].
  destruct (decompile data) as [font|]; [|done].
  unfold font_names, lift.
  destruct (TTFont.name font) as [[names|e]|]; [|done|done].
  rewrite rewrite_names_renamed. unfold TTFont_save. cbn [fs log].
  unfold TTFont.sort_names, TTFont.set_names. cbn [TTFont.name TTFont.tables].
  destruct (compile _) as [out|]; [|done].
  unfold TTFont_close, print, emit, lift. cbn [fs log].
  destruct (stdout_encodes success_message); cbn [fs log];
    by rewrite <- !app_assoc.
Qed.

(** A run that returns leaves on disk what [compile] made of the loaded
    font with its rewritten and sorted name table. *)
Lemma main_Ok (w w' : world) :
  main SCRIPT_DIR w = (Ok (), w') →
  ∃ data font names out,
    fs w !! p = Some data ∧ decompile data = Some font ∧
    TTFont.name font = Some (Ok names) ∧
    compile (TTFont.mk (Some (Ok (sort_records (renamed <$> names))))
                       (TTFont.tables font)) = Some out ∧
    fs w' = <[p := out]> (fs w).
Proof.
  rewrite main_run. intros Hrun.
  destruct (fs w !! p) as [data|] eqn:Hdata; [|done].
  destruct (decompile data) as [font|] eqn:Hfont; [|done].
  destruct (TTFont.name font) as [[names|e]|] eqn:Hnames; [|done|done].
  destruct (compile _) as [out|] eqn:Hout; [|done].
  destruct (stdout_encodes success_message); [|done].
  injection Hrun as <-. by exists data, font, names, out.
Qed.

End script_properties.

(** The font handed to [save] carries the tables it was loaded with: the
    script assigns to nothing but the [string] of naming records. *)
Lemma set_names_tables (font : TTFont.t) (names : list NameRecord.t) :
  TTFont.tables (TTFont.set_names font names) = TTFont.tables font.
Proof. reflexivity. Qed.

(** ** The claims about the name table *)

(** C1. Every record of the name table whose nameID is one of 1, 2, 3, 4, 6
    holds, after the rewrite, bytes that decode (as UTF-16-BE) to the text
    the fixed mapping gives for that nameID; the record's platform, encoding
    and language identifiers play no part and are kept. *)
Theorem mapped_record_decodes_to_mapped_text
    (names : list NameRecord.t) (i : nat) (record : NameRecord.t) (text : string) :
  names !! i = Some record →
  (NameRecord.nameID record, text) ∈ spec_names →
  ∃ names' record',
    rewrite_names names = Ok names' ∧
    names' !! i = Some record' ∧
    same_ids record record' ∧
    decode_utf_16_be (NameRecord.string record') = Some (lit text).
Proof.
  intros Hi Hin.
  destruct (rewrite_names_lookup names i record Hi) as (names' & Hrun & Hi').
  assert (name_map !! NameRecord.nameID record = Some (lit text)) as Hk
    by (apply name_map_lookup_Some; eauto).
  destruct (renamed_mapped record _ Hk) as (b & _ & Hdec & Hren).
  exists names', (renamed record).
  split_and!; [done | done | apply renamed_same_ids | by rewrite Hren].
Qed.

Lemma mapped_record_decodes_to_mapped_text_witness :
  ∃ names' record',
    rewrite_names sample_names = Ok names' ∧
    names' !! 2%nat = Some record' ∧
    same_ids (NameRecord.mk 6 3 1 1033 (utf16 "OldPS")) record' ∧
    decode_utf_16_be (NameRecord.string record')
    = Some (lit "AshellNerdFont-Regular").
Proof.
  apply (mapped_record_decodes_to_mapped_text sample_names 2
           (NameRecord.mk 6 3 1 1033 (utf16 "OldPS")) "AshellNerdFont-Regular").
  - reflexivity.
  - unfold spec_names. simpl. repeat constructor.
Defined.

(** C2. A record whose nameID is not a key of the mapping (not one of 1, 2,
    3, 4, 6) is, after the rewrite, the record it was: same bytes, same
    identifiers, same place. *)
Theorem unmapped_record_unchanged
    (names : list NameRecord.t) (i : nat) (record : NameRecord.t) :
  names !! i = Some record →
  NameRecord.nameID record ∉ mapped_ids →
  ∃ names', rewrite_names names = Ok names' ∧ names' !! i = Some record.
Proof.
  intros Hi Hk.
  destruct (rewrite_names_lookup names i record Hi) as (names' & Hrun & Hi').
  exists names'. split; [done|].
  rewrite Hi'. f_equal. by apply renamed_unmapped, name_map_lookup_None.
Qed.

Lemma unmapped_record_unchanged_witness :
  ∃ names', rewrite_names sample_names = Ok names' ∧
            names' !! 3%nat = Some (NameRecord.mk 16 3 1 1033 (utf16 "Old Family")).
Proof.
  apply (unmapped_record_unchanged sample_names 3
           (NameRecord.mk 16 3 1 1033 (utf16 "Old Family"))).
  - reflexivity.
  - unfold mapped_ids. simpl. rewrite !not_elem_of_cons.
    repeat split; try discriminate. apply not_elem_of_nil.
Defined.

(** C3. A record whose nameID is a key of the mapping holds, after the
    rewrite, exactly the UTF-16-BE encoding of the mapped text: the encoder
    returns these bytes, and they are the characters of the text as 16-bit
    units, high byte first. Nothing else of the record changes, and the
    record's platform and encoding identifiers are not consulted: the bytes
    are the same for every such record. *)
Theorem mapped_record_stores_utf_16_be
    (names : list NameRecord.t) (i : nat) (record : NameRecord.t) (new_name : str) :
  names !! i = Some record →
  name_map !! NameRecord.nameID record = Some new_name →
  ∃ names' record',
    rewrite_names names = Ok names' ∧
    names' !! i = Some record' ∧
    same_ids record record' ∧
    encode_utf_16_be new_name = Ok (NameRecord.string record') ∧
    NameRecord.string record' = big_endian_16 new_name.
Proof.
  intros Hi Hk.
  destruct (rewrite_names_lookup names i record Hi) as (names' & Hrun & Hi').
  destruct (renamed_mapped record _ Hk) as (b & Henc & _ & Hren).
  exists names', (renamed record).
  split_and!; [done | done | apply renamed_same_ids | |].
  - by rewrite Hren.
  - rewrite Hren. cbn [NameRecord.string NameRecord.set_string].
    pose proof (name_map_big_endian _ _ Hk) as Hbe.
    rewrite Henc in Hbe. by injection Hbe.
Qed.

Lemma mapped_record_stores_utf_16_be_witness :
  ∃ names' record',
    rewrite_names sample_names = Ok names' ∧
    names' !! 1%nat = Some record' ∧
    same_ids (NameRecord.mk 2 3 1 1033 (utf16 "Bold")) record' ∧
    encode_utf_16_be (lit "Regular") = Ok (NameRecord.string record') ∧
    NameRecord.string record' = big_endian_16 (lit "Regular").
Proof.
  apply (mapped_record_stores_utf_16_be sample_names 1
           (NameRecord.mk 2 3 1 1033 (utf16 "Bold")) (lit "Regular")).
  - reflexivity.
  - reflexivity.
Defined.

Lemma renamed_unmapped_list (others : list NameRecord.t) :
  Forall (λ r, NameRecord.nameID r ∉ mapped_ids) others →
  renamed <$> others = others.
Proof.
  induction 1 as [|r others Hr _ IH]; [done|].
  rewrite fmap_cons, IH. f_equal.
  by apply renamed_unmapped, name_map_lookup_None.
Qed.

(** C7. The scenario: a name table made of a family record (nameID 1, "Old
    Family"), a subfamily record (nameID 2, "Bold") and a PostScript record
    (nameID 6, "OldPS"), in any order and mixed with any records whose
    nameID is not a key of the mapping (nameID 16, say). After the rewrite
    the three hold "Ashell Nerd Font", "Regular" and
    "AshellNerdFont-Regular", and the other records are the same as before. *)
Theorem scenario_old_family
    (p1 e1 l1 p2 e2 l2 p6 e6 l6 : Z) (s1 s2 s6 : list byte)
    (others names : list NameRecord.t) :
  decode_utf_16_be s1 = Some (lit "Old Family") →
  decode_utf_16_be s2 = Some (lit "Bold") →
  decode_utf_16_be s6 = Some (lit "OldPS") →
  Forall (λ r, NameRecord.nameID r ∉ mapped_ids) others →
  names ≡ₚ [ NameRecord.mk 1 p1 e1 l1 s1;
             NameRecord.mk 2 p2 e2 l2 s2;
             NameRecord.mk 6 p6 e6 l6 s6 ] ++ others →
  ∃ names' b1 b2 b6,
    rewrite_names names = Ok names' ∧
    decode_utf_16_be b1 = Some (lit "Ashell Nerd Font") ∧
    decode_utf_16_be b2 = Some (lit "Regular") ∧
    decode_utf_16_be b6 = Some (lit "AshellNerdFont-Regular") ∧
    names' ≡ₚ [ NameRecord.mk 1 p1 e1 l1 b1;
                NameRecord.mk 2 p2 e2 l2 b2;
                NameRecord.mk 6 p6 e6 l6 b6 ] ++ others.
Proof.
  intros _ _ _ Hothers Hperm.
  destruct (renamed_mapped (NameRecord.mk 1 p1 e1 l1 s1) (lit "Ashell Nerd Font"))
    as (b1 & _ & Hd1 & Hr1); [done|].
  destruct (renamed_mapped (NameRecord.mk 2 p2 e2 l2 s2) (lit "Regular"))
    as (b2 & _ & Hd2 & Hr2); [done|].
  destruct (renamed_mapped (NameRecord.mk 6 p6 e6 l6 s6) (lit "AshellNerdFont-Regular"))
    as (b6 & _ & Hd6 & Hr6); [done|].
  exists (renamed <$> names), b1, b2, b6.
  split_and!; [apply rewrite_names_renamed | done | done | done |].
  rewrite Hperm, fmap_app, !fmap_cons, fmap_nil.
  by rewrite Hr1, Hr2, Hr6, renamed_unmapped_list.
Qed.

Lemma scenario_old_family_witness :
  ∃ names' b1 b2 b6,
    rewrite_names sample_names = Ok names' ∧
    decode_utf_16_be b1 = Some (lit "Ashell Nerd Font") ∧
    decode_utf_16_be b2 = Some (lit "Regular") ∧
    decode_utf_16_be b6 = Some (lit "AshellNerdFont-Regular") ∧
    names' ≡ₚ [ NameRecord.mk 1 3 1 1033 b1;
                NameRecord.mk 2 3 1 1033 b2;
                NameRecord.mk 6 3 1 1033 b6 ]
              ++ [ NameRecord.mk 16 3 1 1033 (utf16 "Old Family") ].
Proof.
  apply (scenario_old_family 3 1 1033 3 1 1033 3 1 1033
           (utf16 "Old Family") (utf16 "Bold") (utf16 "OldPS")).
  - reflexivity.
  - reflexivity.
  - reflexivity.
  - constructor; [|constructor]. unfold mapped_ids. simpl.
    rewrite !not_elem_of_cons.
    repeat split; try discriminate. apply not_elem_of_nil.
  - reflexivity.
Defined.

(** C10. The bytes a mapped record ends with are a function of its nameID
    alone: take any two records with the same mapped nameID, in the same
    table or in two different ones, at any positions and with any previous
    bytes and any other identifiers; after the rewrite both hold the same
    bytes. *)
Theorem stored_bytes_depend_on_nameID_only
    (names1 names2 : list NameRecord.t) (i j : nat) (r1 r2 : NameRecord.t) :
  names1 !! i = Some r1 →
  names2 !! j = Some r2 →
  NameRecord.nameID r1 = NameRecord.nameID r2 →
  NameRecord.nameID r1 ∈ mapped_ids →
  ∃ out1 out2 r1' r2',
    rewrite_names names1 = Ok out1 ∧
    rewrite_names names2 = Ok out2 ∧
    out1 !! i = Some r1' ∧
    out2 !! j = Some r2' ∧
    NameRecord.string r1' = NameRecord.string r2'.
Proof.
  intros H1 H2 Hid Hk.
  destruct (rewrite_names_lookup names1 i r1 H1) as (out1 & Hrun1 & Ho1).
  destruct (rewrite_names_lookup names2 j r2 H2) as (out2 & Hrun2 & Ho2).
  exists out1, out2, (renamed r1), (renamed r2).
  split_and!; [done | done | done | done |].
  unfold renamed, new_string. cbn [NameRecord.string NameRecord.set_string].
  rewrite <- Hid.
  destruct (mapped_ids_lookup _ Hk) as (s & Hs). rewrite Hs.
  destruct (name_map_encodes _ _ Hs) as (b & -> & _). done.
Qed.

Lemma stored_bytes_depend_on_nameID_only_witness :
  ∃ out1 out2 r1' r2',
    rewrite_names sample_names = Ok out1 ∧
    rewrite_names [ NameRecord.mk 16 0 3 0 []; NameRecord.mk 1 1 0 0 (utf16 "x") ]
    = Ok out2 ∧
    out1 !! 0%nat = Some r1' ∧
    out2 !! 1%nat = Some r2' ∧
    NameRecord.string r1' = NameRecord.string r2'.
Proof.
  apply (stored_bytes_depend_on_nameID_only sample_names
           [ NameRecord.mk 16 0 3 0 []; NameRecord.mk 1 1 0 0 (utf16 "x") ]
           0 1
           (NameRecord.mk 1 3 1 1033 (utf16 "Old Family"))
           (NameRecord.mk 1 1 0 0 (utf16 "x"))).
  - reflexivity.
  - reflexivity.
  - reflexivity.
  - unfold mapped_ids. simpl. constructor.
Defined.

(** ** The claims about a run of the script *)

Lemma name_table_on_disk_saved `{FontTools} `{Console} (dir : path) (w w' : world) :
  (∀ font data, compile font = Some data →
     ∃ font', decompile data = Some font' ∧
              TTFont.name font' = TTFont.name font) →
  main dir w = (Ok (), w') →
  ∃ names, name_table_on_disk dir w = Some names ∧
           name_table_on_disk dir w'
           = Some (sort_records (renamed <$> names)).
Proof.
  intros Hback Hrun.
  destruct (main_Ok dir w w' Hrun)
    as (data & font & names & out & Hdata & Hfont & Hnames & Hout & Hfs).
  destruct (Hback _ _ Hout) as (font' & Hfont' & Hnames').
  exists names. unfold name_table_on_disk. split.
  - rewrite Hdata. simpl. rewrite Hfont. simpl. by rewrite Hnames.
  - rewrite Hfs, lookup_insert_eq. simpl. rewrite Hfont'. simpl.
    by rewrite Hnames'.
Qed.

(** C4. The rewrite of the name table is idempotent: the loop, run on its
    own result, returns that result again. And for a run of the whole
    script: when the font library reads back from a saved file the name
    table that was saved, two runs in a row leave on disk the name table
    that the first run alone leaves. *)
Theorem rewriter_idempotent `{FontTools} `{Console} (dir : path) :
  (∀ names, ∃ names',
     rewrite_names names = Ok names' ∧ rewrite_names names' = Ok names') ∧
  (∀ w w1 w2,
     (∀ font data, compile font = Some data →
        ∃ font', decompile data = Some font' ∧
                 TTFont.name font' = TTFont.name font) →
     main dir w = (Ok (), w1) →
     main dir w1 = (Ok (), w2) →
     ∃ names',
       name_table_on_disk dir w1 = Some names' ∧
       name_table_on_disk dir w2 = Some names').
Proof.
  split.
  - intros names. exists (renamed <$> names).
    split; [apply rewrite_names_renamed|].
    apply (rewrite_names_idemp names), rewrite_names_renamed.
  - intros w w1 w2 Hback Hrun1 Hrun2.
    destruct (name_table_on_disk_saved dir w w1 Hback Hrun1)
      as (names & _ & Hw1).
    destruct (name_table_on_disk_saved dir w1 w2 Hback Hrun2)
      as (names1 & Hw1' & Hw2).
    exists (sort_records (renamed <$> names)). split; [done|].
    rewrite Hw1 in Hw1'. injection Hw1' as <-.
    rewrite Hw2. f_equal. apply saved_names_fixed.
Qed.

Lemma sample_fontTools_reads_back (font : TTFont.t) (data : list byte) :
  @compile sample_fontTools font = Some data →
  ∃ font', @decompile sample_fontTools data = Some font' ∧
           TTFont.name font' = TTFont.name font.
Proof.
  simpl. intros Hc. destruct (decide (font = sample_font')) as [->|]; [|done].
  injection Hc as <-. by exists sample_font'.
Defined.

Lemma rewriter_idempotent_witness :
  ∃ names',
    @name_table_on_disk sample_fontTools sample_dir
      (@main sample_fontTools unicode_console sample_dir sample_world).2
    = Some names' ∧
    @name_table_on_disk sample_fontTools sample_dir
      (@main sample_fontTools unicode_console sample_dir
         (@main sample_fontTools unicode_console sample_dir sample_world).2).2
    = Some names'.
Proof.
  apply (proj2 (@rewriter_idempotent sample_fontTools unicode_console sample_dir)
           sample_world).
  - exact sample_fontTools_reads_back.
  - vm_compute. reflexivity.
  - vm_compute. reflexivity.
Defined.

(** C8, as the code has it. The rewrite loop creates, deletes and moves no
    record: the table it hands to the save has as many records as the
    input, in the input's order, each with its nameID, platform, encoding
    and language identifiers. The save then sorts the records: when the
    font library reads back the name table that was saved, the table in the
    saved file is the loop's result reordered, with as many records as the
    input; it is in the input's order when the input was sorted. *)
Theorem rewrite_keeps_records `{FontTools} `{Console} (dir : path) :
  (∀ names, ∃ names',
     rewrite_names names = Ok names' ∧
     length names' = length names ∧
     Forall2 same_ids names names') ∧
  (∀ w w',
     (∀ font data, compile font = Some data →
        ∃ font', decompile data = Some font' ∧
                 TTFont.name font' = TTFont.name font) →
     main dir w = (Ok (), w') →
     ∃ names names' saved,
       name_table_on_disk dir w = Some names ∧
       rewrite_names names = Ok names' ∧
       name_table_on_disk dir w' = Some saved ∧
       saved = sort_records names' ∧
       saved ≡ₚ names' ∧
       length saved = length names ∧
       (Sorted record_le names → saved = names')).
Proof.
  split.
  - intros names. exists (renamed <$> names). split_and!.
    + apply rewrite_names_renamed.
    + apply length_fmap.
    + apply Forall2_fmap_r, Forall_Forall2_diag, Forall_forall.
      intros r _. apply renamed_same_ids.
  - intros w w' Hback Hrun.
    destruct (name_table_on_disk_saved dir w w' Hback Hrun)
      as (names & Hw & Hw').
    exists names, (renamed <$> names), (sort_records (renamed <$> names)).
    split_and!; [done | apply rewrite_names_renamed | done | done | | |].
    + apply sort_records_Permutation.
    + by rewrite sort_records_Permutation, length_fmap.
    + intros Hsorted. by apply sort_records_sorted, Sorted_renamed.
Qed.

Lemma unsorted_fontTools_reads_back (font : TTFont.t) (data : list byte) :
  @compile unsorted_fontTools font = Some data →
  ∃ font', @decompile unsorted_fontTools data = Some font' ∧
           TTFont.name font' = TTFont.name font.
Proof.
  simpl. intros Hc. destruct (decide (font = unsorted_font')) as [->|]; [|done].
  injection Hc as <-. by exists unsorted_font'.
Defined.

Lemma rewrite_keeps_records_witness :
  ∃ names names' saved,
    @name_table_on_disk unsorted_fontTools sample_dir sample_world = Some names ∧
    rewrite_names names = Ok names' ∧
    @name_table_on_disk unsorted_fontTools sample_dir
      (@main unsorted_fontTools unicode_console sample_dir sample_world).2
    = Some saved ∧
    saved = sort_records names' ∧
    saved ≡ₚ names' ∧
    length saved = length names ∧
    (Sorted record_le names → saved = names').
Proof.
  apply (proj2 (@rewrite_keeps_records unsorted_fontTools unicode_console sample_dir)
           sample_world).
  - exact unsorted_fontTools_reads_back.
  - vm_compute. reflexivity.
Defined.

(** C8, as the claim words it, fails: a table whose records stand in the
    order 16, 4, 1, 17 (the first two for platform 3, the last two for
    platform 1) is in the saved file in the order 1, 17, 4, 16. *)
Lemma saved_name_table_is_reordered :
  (@main unsorted_fontTools unicode_console sample_dir sample_world).1 = Ok () ∧
  @name_table_on_disk unsorted_fontTools sample_dir sample_world
  = Some unsorted_names ∧
  ∃ saved,
    @name_table_on_disk unsorted_fontTools sample_dir
      (@main unsorted_fontTools unicode_console sample_dir sample_world).2
    = Some saved ∧
    NameRecord.nameID <$> unsorted_names = [16; 4; 1; 17]%Z ∧
    NameRecord.nameID <$> saved = [1; 17; 4; 16]%Z ∧
    ¬ Forall2 same_ids unsorted_names saved.
Proof.
  split; [by vm_compute|]. split; [by vm_compute|].
  eexists. split; [by vm_compute|].
  split; [done|]. split; [done|].
  intros Hsame. apply Forall2_cons_1 in Hsame as [[Hid _] _].
  discriminate Hid.
Qed.

(** C6. When there is no file at the font path the script raises at the
    first statement, the load: nothing has been written, printed or
    otherwise done, and the file system is as it was. *)
Theorem missing_font_fails_before_write `{FontTools} `{Console}
    (dir : path) (w : world) :
  fs w !! FONT_PATH dir = None →
  main dir w = (Raise FileNotFoundError, w).
Proof. intros Hnone. by rewrite main_run, Hnone. Qed.

Lemma missing_font_fails_before_write_witness :
  @main sample_fontTools unicode_console sample_dir (World ∅ [])
  = (Raise FileNotFoundError, World ∅ []).
Proof.
  apply (@missing_font_fails_before_write sample_fontTools unicode_console
           sample_dir (World ∅ [])).
  reflexivity.
Defined.



(** ** Further properties of the encoder *)

Lemma utf16_units_not_surrogate (c : Z) :
  is_surrogate c = false →
  ∃ us, utf16_units c = Ok us ∧
        length us = (if bool_decide (0x10000 ≤ c)%Z then 2 else 1)%nat.
Proof.
  unfold utf16_units. intros Hc. rewrite Hc.
  destruct (Z.ltb_spec c 0x10000).
  - rewrite bool_decide_eq_false_2 by lia. by eexists.
  - rewrite bool_decide_eq_true_2 by lia. by eexists.
Qed.

Lemma utf16_units_surrogate (c : Z) :
  is_surrogate c = true → utf16_units c = Raise UnicodeEncodeError.
Proof.
  intros Hc. unfold utf16_units. rewrite Hc.
  destruct (Z.ltb_spec c 0x10000); [done|].
  unfold is_surrogate in Hc.
  apply andb_true_iff in Hc as [_ Hhi%Z.leb_le]. lia.
Qed.

Lemma encode_utf_16_be_no_surrogate (s : str) :
  Forall (λ c, is_surrogate c = false) s → ∃ b, encode_utf_16_be s = Ok b.
Proof.
  induction 1 as [|c s Hc _ [bs IH]]; [by eexists|].
  destruct (utf16_units_not_surrogate c Hc) as (us & Hus & _).
  cbn [encode_utf_16_be]. rewrite Hus, IH. by eexists.
Qed.

(** X1. Encoding loses nothing: a text of valid code points without
    surrogates has an encoding, and decoding those bytes gives the text
    back. *)
Theorem utf_16_be_round_trip (s : str) :
  valid_str s →
  Forall (λ c, is_surrogate c = false) s →
  ∃ b, encode_utf_16_be s = Ok b ∧ decode_utf_16_be b = Some s.
Proof.
  intros Hvalid Hs.
  destruct (encode_utf_16_be_no_surrogate s Hs) as [b Hb].
  exists b. split; [done|]. by apply decode_encode_utf_16_be.
Qed.

Lemma utf_16_be_round_trip_witness :
  ∃ b, encode_utf_16_be [0x41; 0xE9; 0x20AC; 0x1F600]%Z = Ok b ∧
       decode_utf_16_be b = Some [0x41; 0xE9; 0x20AC; 0x1F600]%Z.
Proof.
  apply (utf_16_be_round_trip [0x41; 0xE9; 0x20AC; 0x1F600]%Z).
  - repeat constructor; unfold valid_code_point; lia.
  - repeat constructor.
Defined.

(** X2. The encoder raises exactly when the text holds a surrogate code
    point, and then the exception is [UnicodeEncodeError]; otherwise it
    returns. *)
Theorem encode_utf_16_be_raises_on_surrogates_only (s : str) :
  match encode_utf_16_be s with
  | Ok _ => Forall (λ c, is_surrogate c = false) s
  | Raise e => e = UnicodeEncodeError ∧ Exists (λ c, is_surrogate c = true) s
  end.
Proof.
  induction s as [|c s IH]; [by constructor|].
  cbn [encode_utf_16_be].
  destruct (is_surrogate c) eqn:Hc.
  - rewrite (utf16_units_surrogate c Hc). simpl. split; [done|].
    by apply Exists_cons_hd.
  - destruct (utf16_units_not_surrogate c Hc) as (us & -> & _). simpl.
    destruct (encode_utf_16_be s) as [bs|e]; simpl.
    + by constructor.
    + destruct IH as [-> IH]. split; [done|]. by apply Exists_cons_tl.
Qed.

(** X3. The encoding takes two bytes for each code point below 0x10000 and
    four for each code point from 0x10000 on. *)
Theorem encode_utf_16_be_length (s : str) (b : list byte) :
  encode_utf_16_be s = Ok b →
  length b = (2 * length s + 2 * length (filter (λ c, (0x10000 ≤ c)%Z) s))%nat.
Proof.
  unfold str in *. revert b. induction s as [|c s IH]; intros b Hb.
  - by injection Hb as <-.
  - cbn [encode_utf_16_be] in Hb.
    destruct (is_surrogate c) eqn:Hc.
    { by rewrite (utf16_units_surrogate c Hc) in Hb. }
    unfold utf16_units in Hb. rewrite Hc in Hb.
    destruct (encode_utf_16_be s) as [bs|]; [|by destruct (c <? 0x10000)%Z].
    specialize (IH bs eq_refl).
    destruct (Z.ltb_spec c 0x10000); injection Hb as <-.
    + rewrite filter_cons. case_decide; [lia|].
      cbn [length]. rewrite IH. lia.
    + rewrite filter_cons. case_decide; [|lia].
      cbn [length]. rewrite IH. lia.
Qed.

Lemma encode_utf_16_be_length_witness :
  length (byte_of_Z <$> [0; 0x41; 0xD8; 0x3D; 0xDE; 0]%Z)
  = (2 * length [0x41; 0x1F600]%Z
     + 2 * length (filter (λ c, (0x10000 ≤ c)%Z) [0x41; 0x1F600]%Z))%nat.
Proof.
  apply (encode_utf_16_be_length [0x41; 0x1F600]%Z
           (byte_of_Z <$> [0; 0x41; 0xD8; 0x3D; 0xDE; 0]%Z)).
  reflexivity.
Defined.

(** X4. The encoding of a concatenation is the concatenation of the
    encodings; it raises where the first of the two would. *)
Theorem encode_utf_16_be_app (s1 s2 : str) :
  encode_utf_16_be (s1 ++ s2)
  = (b1 ← encode_utf_16_be s1; b2 ← encode_utf_16_be s2; Ok (b1 ++ b2)).
Proof.
  induction s1 as [|c s1 IH].
  - simpl. by destruct (encode_utf_16_be s2).
  - cbn [app encode_utf_16_be]. rewrite IH.
    destruct (utf16_units c) as [us|]; [|done]. simpl.
    destruct (encode_utf_16_be s1) as [b1|]; [|done]. simpl.
    destruct (encode_utf_16_be s2) as [b2|]; [|done]. simpl.
    by rewrite app_assoc.
Qed.

(** ** Further properties of the loop *)

Lemma renamed_fixed (record : NameRecord.t) :
  renamed record = record ↔
  ∀ new_name, name_map !! NameRecord.nameID record = Some new_name →
              encode_utf_16_be new_name = Ok (NameRecord.string record).
Proof.
  split.
  - intros Hfix new_name Hk.
    destruct (renamed_mapped record new_name Hk) as (b & Hb & _ & Hren).
    rewrite Hren in Hfix. apply (f_equal NameRecord.string) in Hfix.
    simpl in Hfix. by rewrite Hb, Hfix.
  - intros Hall.
    destruct (name_map !! NameRecord.nameID record) as [s|] eqn:Hk.
    + destruct (renamed_mapped record s Hk) as (b & Hb & _ & ->).
      rewrite (Hall s eq_refl) in Hb. injection Hb as <-.
      apply set_string_string.
    + by apply renamed_unmapped.
Qed.

(** X5. The loop treats each record on its own: rewriting two tables one
    after the other and joining the results is rewriting the joined
    table. *)
Theorem rewrite_names_app (names1 names2 : list NameRecord.t) :
  rewrite_names (names1 ++ names2)
  = (out1 ← rewrite_names names1; out2 ← rewrite_names names2; Ok (out1 ++ out2)).
Proof. rewrite !rewrite_names_renamed. simpl. by rewrite fmap_app. Qed.

(** X6. The tables the rewrite leaves as they are, are exactly those in
    which every record with a mapped nameID already holds the encoding of
    its mapped text. *)
Theorem rewrite_names_fixed_point (names : list NameRecord.t) :
  rewrite_names names = Ok names ↔
  Forall (λ record,
            ∀ new_name,
              name_map !! NameRecord.nameID record = Some new_name →
              encode_utf_16_be new_name = Ok (NameRecord.string record))
         names.
Proof.
  rewrite rewrite_names_renamed. split.
  - intros [= Hfix]. apply fmap_fixed in Hfix.
    eapply Forall_impl; [exact Hfix|]. intros r. apply renamed_fixed.
  - intros Hall. f_equal. apply fmap_fixed.
    eapply Forall_impl; [exact Hall|]. intros r. apply renamed_fixed.
Qed.

Lemma rewrite_names_fixed_point_witness :
  rewrite_names [ NameRecord.mk 2 1 0 0 (utf16 "Regular");
                  NameRecord.mk 16 3 1 1033 (utf16 "Bold") ]
  = Ok [ NameRecord.mk 2 1 0 0 (utf16 "Regular");
         NameRecord.mk 16 3 1 1033 (utf16 "Bold") ].
Proof.
  apply (proj2 (rewrite_names_fixed_point
                  [ NameRecord.mk 2 1 0 0 (utf16 "Regular");
                    NameRecord.mk 16 3 1 1033 (utf16 "Bold") ])).
  repeat constructor.
  - intros new_name Hk. injection Hk as <-. reflexivity.
  - intros new_name Hk. discriminate Hk.
Defined.

(** ** Further properties of a run *)

(** X7. The print comes after the save and can itself fail: on a console
    that cannot encode the success message, a run whose load, name lookup
    and save succeed raises [UnicodeEncodeError] with the font file already
    overwritten and nothing printed. *)
Theorem print_failure_after_save `{FontTools} `{Console}
    (dir : path) (w : world)
    (data : list byte) (font : TTFont.t) (names names' : list NameRecord.t)
    (out : list byte) :
  fs w !! FONT_PATH dir = Some data →
  decompile data = Some font →
  TTFont.name font = Some (Ok names) →
  rewrite_names names = Ok names' →
  compile (TTFont.sort_names (TTFont.set_names font names')) = Some out →
  stdout_encodes success_message = false →
  main dir w
  = (Raise UnicodeEncodeError,
     World (<[FONT_PATH dir := out]> (fs w))
           (log w ++ [ Loaded (FONT_PATH dir);
                       Saved (FONT_PATH dir) out;
                       Closed ])).
Proof.
  intros Hdata Hfont Hnames Hrw Hout Henc.
  rewrite rewrite_names_renamed in Hrw. injection Hrw as <-.
  rewrite main_run, Hdata, Hfont, Hnames. cbn zeta.
  unfold TTFont.sort_names, TTFont.set_names in Hout.
  cbn [TTFont.name TTFont.tables] in Hout.
  by rewrite Hout, Henc.
Qed.

Lemma print_failure_after_save_witness :
  @main sample_fontTools ascii_console sample_dir sample_world
  = (Raise UnicodeEncodeError,
     World (<[FONT_PATH sample_dir := sample_data']> (fs sample_world))
           (log sample_world ++ [ Loaded (FONT_PATH sample_dir);
                                  Saved (FONT_PATH sample_dir) sample_data';
                                  Closed ])).
Proof.
  apply (@print_failure_after_save sample_fontTools ascii_console
           sample_dir sample_world
           sample_data sample_font sample_names (renamed <$> sample_names)).
  - reflexivity.
  - reflexivity.
  - reflexivity.
  - reflexivity.
  - vm_compute. reflexivity.
  - reflexivity.
Defined.

(** X8. A run reads and writes the font path only: whatever the outcome,
    every other path of the file system holds what it held. *)
Theorem main_keeps_other_files `{FontTools} `{Console} (dir q : path) (w : world) :
  q ≠ FONT_PATH dir →
  fs (main dir w).2 !! q = fs w !! q.
Proof.
  intros Hq. rewrite main_run.
  destruct (fs w !! FONT_PATH dir) as [data|]; [|done].
  destruct (decompile data) as [font|]; [|done].
  destruct (TTFont.name font) as [[names|e]|]; [|done|done]. cbn zeta.
  destruct (compile _) as [out|]; [|done].
  destruct (stdout_encodes success_message); simpl; by rewrite lookup_insert_ne.
Qed.

Lemma main_keeps_other_files_witness :
  fs (@main sample_fontTools unicode_console sample_dir sample_world).2
    !! ["assets"; "other.ttf"]
  = fs sample_world !! ["assets"; "other.ttf"].
Proof.
  apply (@main_keeps_other_files sample_fontTools unicode_console sample_dir
           ["assets"; "other.ttf"] sample_world).
  discriminate.
Defined.

(** A font without a [name] table: the lookup raises [KeyError]. *)
Example missing_name_table_raises_KeyError :
  @main tableless_fontTools unicode_console sample_dir sample_world
  = (Raise KeyError,
     World (fs sample_world) [Loaded (FONT_PATH sample_dir)]).
Proof. by vm_compute. Qed.

(** X9. A font that can be opened but whose [name] table cannot be had,
    because the font has none or because the table does not decode, makes
    the run raise at the name lookup ([KeyError], or what the decoding
    raises), before the save: the file system is unchanged and nothing is
    printed. *)
Theorem main_without_name_table_keeps_disk `{FontTools} `{Console}
    (dir : path) (w : world) (data : list byte) (font : TTFont.t) :
  fs w !! FONT_PATH dir = Some data →
  decompile data = Some font →
  (∀ names, TTFont.name font ≠ Some (Ok names)) →
  ∃ e,
    main dir w
    = (Raise e, World (fs w) (log w ++ [Loaded (FONT_PATH dir)])) ∧
    match TTFont.name font with
    | None => e = KeyError
    | Some r => r = Raise e
    end.
Proof.
  intros Hdata Hfont Hnone. rewrite main_run, Hdata, Hfont. cbn zeta.
  destruct (TTFont.name font) as [[names|e]|].
  - by destruct (Hnone names).
  - by exists e.
  - by exists KeyError.
Qed.

Lemma main_without_name_table_keeps_disk_witness :
  ∃ e,
    @main malformed_fontTools unicode_console sample_dir sample_world
    = (Raise e,
       World (fs sample_world) (log sample_world ++ [Loaded (FONT_PATH sample_dir)])) ∧
    match TTFont.name (TTFont.mk (Some (Raise StructError)) ∅) with
    | None => e = KeyError
    | Some r => r = Raise e
    end.
Proof.
  apply (@main_without_name_table_keeps_disk malformed_fontTools unicode_console
           sample_dir sample_world sample_data
           (TTFont.mk (Some (Raise StructError)) ∅)).
  - reflexivity.
  - reflexivity.
  - intros names. discriminate.
Defined.
